(** * The per-frame update system of the transparent_texture example

    Shallow embedding of [ExampleSystem::run]
    (src/examples/transparent_texture/main.rs, lines 156-213), together
    with the pieces of nalgebra 0.16 and amethyst that it calls:
    [UnitQuaternion::from_axis_angle], the Hamilton product, the product of
    a unit quaternion with a vector and with an [Isometry3], amethyst's
    [Transform] (an isometry plus a scale), and Rust's [{:.*}] fixed
    precision formatting of a float.

    The code is written once over a scalar type [F] (nalgebra is generic in
    its scalar, [N: Real]); the program itself uses [f32], which is
    instantiated below with IEEE binary32 arithmetic (round to nearest even)
    from [SpecFloat].  A second instance over the real numbers [R] gives the
    exact arithmetic the rounding approximates. *)

From Stdlib Require Import ZArith QArith Reals Ratan Lra Lia.
From Stdlib Require Import Floats.SpecFloat Qabs.
From stdpp Require Import base gmap strings list fin_maps.

Local Open Scope Z_scope.

(** ** The scalar interface used by the code *)

(** The operations the system and nalgebra use on [f32]: [+ - * /], the
    literals [0.0], [1.0], [::convert(2.0f64)] and the source literal [0.1]
    (the angular velocity), [f32::sin_cos], and the [{:.*}] formatter with
    precision 2. *)
Class NReal (F : Type) := {
  fadd : F -> F -> F;
  fsub : F -> F -> F;
  fmul : F -> F -> F;
  fdiv : F -> F -> F;
  fzero : F;
  fone : F;
  ftwo : F;
  flit01 : F;
  sin_cos : F -> F * F;
  format_prec2 : F -> string
}.

(** ** Decimal rendering shared by the formatters *)

Definition digit_char (d : N) : Ascii.ascii :=
  Ascii.ascii_of_N (48 + d)%N.

Fixpoint dec_digits (fuel : nat) (n : N) (acc : string) : string :=
  match fuel with
  | O => acc
  | S f =>
      let acc' := String (digit_char (N.modulo n 10)) acc in
      if N.eqb (N.div n 10) 0 then acc' else dec_digits f (N.div n 10) acc'
  end.

Definition string_of_N (n : N) : string := dec_digits (S (N.size_nat n)) n EmptyString.

(** [n] is the magnitude times 100, already rounded; prints
    [int_part.two_digits] with a leading [-] for negative values. *)
Definition fixed2_of_scaled (neg : bool) (n : N) : string :=
  let c := N.modulo n 100 in
  (if neg then "-" else "") ++ string_of_N (N.div n 100) ++ "." ++
  String (digit_char (N.div c 10)) (String (digit_char (N.modulo c 10)) EmptyString).

(** ** nalgebra 0.16: vectors, quaternions, isometries *)

Section Nalgebra.
Context {F : Type} `{NReal F}.

Record Vector3 := mkV { vx : F; vy : F; vz : F }.

(** [Quaternion::new(w, i, j, k)]; a [UnitQuaternion] is the same data,
    built with [new_unchecked] (no renormalisation). *)
Record Quaternion := mkQ { qw : F; qi : F; qj : F; qk : F }.

Definition qvector (q : Quaternion) : Vector3 := mkV (qi q) (qj q) (qk q).

Definition from_parts (w : F) (v : Vector3) : Quaternion :=
  mkQ w (vx v) (vy v) (vz v).

Definition quat_identity : Quaternion := mkQ fone fzero fzero fzero.

(** [Vector3::z_axis()] *)
Definition z_axis : Vector3 := mkV fzero fzero fone.

Definition vscale (v : Vector3) (s : F) : Vector3 :=
  mkV (fmul (vx v) s) (fmul (vy v) s) (fmul (vz v) s).

Definition vadd (a b : Vector3) : Vector3 :=
  mkV (fadd (vx a) (vx b)) (fadd (vy a) (vy b)) (fadd (vz a) (vz b)).

Definition cross (a b : Vector3) : Vector3 :=
  mkV (fsub (fmul (vy a) (vz b)) (fmul (vz a) (vy b)))
      (fsub (fmul (vz a) (vx b)) (fmul (vx a) (vz b)))
      (fsub (fmul (vx a) (vy b)) (fmul (vy a) (vx b))).

(** [UnitQuaternion::from_axis_angle(axis, angle)]:
    [let (sang, cang) = (angle / 2).sin_cos();
     Quaternion::from_parts(cang, axis * sang)] *)
Definition from_axis_angle (axis : Vector3) (angle : F) : Quaternion :=
  let '(sang, cang) := sin_cos (fdiv angle ftwo) in
  from_parts cang (vscale axis sang).

(** Hamilton product [self * rhs], evaluated left to right as in
    nalgebra's [quaternion_ops.rs]. *)
Definition quat_mul (a b : Quaternion) : Quaternion :=
  mkQ (fsub (fsub (fsub (fmul (qw a) (qw b)) (fmul (qi a) (qi b)))
                  (fmul (qj a) (qj b))) (fmul (qk a) (qk b)))
      (fsub (fadd (fadd (fmul (qw a) (qi b)) (fmul (qi a) (qw b)))
                  (fmul (qj a) (qk b))) (fmul (qk a) (qj b)))
      (fadd (fadd (fsub (fmul (qw a) (qj b)) (fmul (qi a) (qk b)))
                  (fmul (qj a) (qw b))) (fmul (qk a) (qi b)))
      (fadd (fsub (fadd (fmul (qw a) (qk b)) (fmul (qi a) (qj b)))
                  (fmul (qj a) (qi b))) (fmul (qk a) (qw b))).

(** [UnitQuaternion * Vector3]:
    [let t = q.vector().cross(v) * 2; let cross = q.vector().cross(&t);
     t * q.scalar() + cross + v] *)
Definition quat_mul_vec (q : Quaternion) (v : Vector3) : Vector3 :=
  let t := vscale (cross (qvector q) v) ftwo in
  let c := cross (qvector q) t in
  vadd (vadd (vscale t (qw q)) c) v.

Record Isometry3 := mkIso { translation : Vector3; rotation : Quaternion }.

(** [UnitQuaternion * Isometry3]: the composition [q ∘ iso], i.e.
    [Isometry::from_parts(Translation::from(q * iso.translation.vector),
                          q * iso.rotation)]. *)
Definition quat_mul_iso (q : Quaternion) (iso : Isometry3) : Isometry3 :=
  mkIso (quat_mul_vec q (translation iso)) (quat_mul q (rotation iso)).

(** amethyst's [Transform { iso: Isometry3<f32>, scale: Vector3<f32> }] *)
Record Transform := mkTransform { isometry : Isometry3; scale : Vector3 }.

Definition set_isometry (t : Transform) (iso : Isometry3) : Transform :=
  mkTransform iso (scale t).
End Nalgebra.

Arguments Vector3 F : clear implicits.
Arguments Quaternion F : clear implicits.
Arguments Isometry3 F : clear implicits.
Arguments Transform F : clear implicits.

(** ** The ECS world seen by [ExampleSystem::run] *)

(** A specs [Entity]. *)
Definition Entity := nat.

Section System.
Context {F : Type} `{NReal F}.

(** amethyst's [Time], through [delta_seconds()] and [frame_number()]. *)
Record Time := mkTime { delta_seconds : F; frame_number : nat }.

(** [struct DemoState { camera_angle: f32 }] *)
Record DemoState := mkDemoState { camera_angle : F }.

(** [impl Default for DemoState] *)
Definition demo_state_default : DemoState := mkDemoState fzero.

(** amethyst's [UiText]: the displayed string and the other fields the
    system never writes. *)
Record UiText := mkUiText { text : string; font_size : F; password : bool }.

(** [fps_display.text = s] *)
Definition set_text (u : UiText) (s : string) : UiText :=
  mkUiText s (font_size u) (password u).

(** The resources and storages of [SystemData]: [Read<Time>],
    [ReadStorage<Camera>] (only the set of entities holding a camera is
    read), [WriteStorage<Transform>], [Write<DemoState>],
    [WriteStorage<UiText>], [Read<FPSCounter>] (through [sampled_fps()])
    and [UiFinder] (through [find]). *)
Record World := mkWorld {
  time : Time;
  camera : gset Entity;
  transforms : gmap Entity (Transform F);
  demo_state : DemoState;
  ui_text : gmap Entity UiText;
  sampled_fps : F;
  finder : string -> option Entity
}.

(** [#[derive(Default)] struct ExampleSystem { fps_display: Option<Entity> }] *)
Record ExampleSystem := mkExampleSystem { fps_display : option Entity }.

Definition example_system_default : ExampleSystem := mkExampleSystem None.

(** The entities visited by [(&camera, &mut transforms).join()]. *)
Definition camera_join (cams : gset Entity) (ts : gmap Entity (Transform F))
  : list Entity := elements (cams ∩ dom ts).

(** [*transform.isometry_mut() = delta_rot * transform.isometry();] *)
Definition rotate_transform (delta_rot : Quaternion F) (tr : Transform F)
  : Transform F := set_isometry tr (quat_mul_iso delta_rot (isometry tr)).

(** The [for] loop over the join. *)
Definition rotate_cameras (delta_rot : Quaternion F) (cams : gset Entity)
    (ts : gmap Entity (Transform F)) : gmap Entity (Transform F) :=
  fold_left (fun m e => alter (rotate_transform delta_rot) e m)
    (camera_join cams ts) ts.

(** [ExampleSystem::run] *)
Definition run (sys : ExampleSystem) (w : World) : ExampleSystem * World :=
  let camera_angular_velocity := flit01 in
  let state' := mkDemoState (fadd (camera_angle (demo_state w))
                   (fmul camera_angular_velocity (delta_seconds (time w)))) in
  let delta_rot := from_axis_angle z_axis
                     (fmul camera_angular_velocity (delta_seconds (time w))) in
  let transforms' := rotate_cameras delta_rot (camera w) (transforms w) in
  let fps_display' :=
    match fps_display sys with
    | None => match finder w "fps_text" with
              | Some fps_entity => Some fps_entity
              | None => None
              end
    | Some e => Some e
    end in
  let ui_text' :=
    match fps_display' with
    | Some fps_entity =>
        match ui_text w !! fps_entity with
        | Some fps_disp =>
            if Nat.eqb (Nat.modulo (frame_number (time w)) 20) 0
            then <[fps_entity := set_text fps_disp
                                   ("FPS: " ++ format_prec2 (sampled_fps w))]>
                   (ui_text w)
            else ui_text w
        | None => ui_text w
        end
    | None => ui_text w
    end in
  (mkExampleSystem fps_display',
   mkWorld (time w) (camera w) transforms' state' ui_text' (sampled_fps w)
     (finder w)).

(** Running the system once per tick, on a list of per-tick worlds:
    each tick's inputs (time, cameras, FPS sample, finder) come from the
    list, the written stores (transforms, demo state, UI texts) are those
    left by the previous tick. *)
Record TickInput := mkTickInput {
  tick_time : Time;
  tick_camera : gset Entity;
  tick_fps : F;
  tick_finder : string -> option Entity
}.

Definition world_at (w : World) (i : TickInput) : World :=
  mkWorld (tick_time i) (tick_camera i) (transforms w) (demo_state w)
    (ui_text w) (tick_fps i) (tick_finder i).

Fixpoint run_ticks (sys : ExampleSystem) (w : World) (ticks : list TickInput)
  : ExampleSystem * World :=
  match ticks with
  | [] => (sys, w)
  | i :: rest =>
      let '(sys', w') := run sys (world_at w i) in run_ticks sys' w' rest
  end.
End System.

Arguments Time F : clear implicits.
Arguments DemoState F : clear implicits.
Arguments UiText F : clear implicits.
Arguments World F : clear implicits.
Arguments TickInput F : clear implicits.

(** ** [f32]: IEEE binary32, round to nearest even *)

Definition prec32 : Z := 24.
Definition emax32 : Z := 128.
Definition f32 := spec_float.

Definition f32_of_Z (z : Z) : f32 := binary_normalize prec32 emax32 z 0 false.
Definition f32_add (x y : f32) : f32 := SFadd prec32 emax32 x y.
Definition f32_sub (x y : f32) : f32 := SFsub prec32 emax32 x y.
Definition f32_mul (x y : f32) : f32 := SFmul prec32 emax32 x y.
Definition f32_div (x y : f32) : f32 := SFdiv prec32 emax32 x y.

(** The literal [0.1_f32]: the binary32 number nearest to 1/10. *)
Definition f32_lit01 : f32 := f32_div (f32_of_Z 1) (f32_of_Z 10).

(** [m * 2^e * 100] rounded to an integer, exact halves rounded to the
    even neighbour: [core::fmt]'s exact mode ([flt2dec::strategy::dragon::
    format_exact]) rounds up when the rest is above half, and on exactly
    half only when the last digit kept is odd. *)
Definition f32_scaled100 (m : positive) (e : Z) : N :=
  if Z.leb 0 e then Z.to_N (Zpos m * 2 ^ e * 100)
  else
    let den := 2 ^ (- e) in
    let num := Zpos m * 100 in
    let q := num / den in
    let r2 := 2 * (num mod den) in
    Z.to_N (if Z.ltb den r2 then q + 1
            else if Z.eqb den r2 then (if Z.odd q then q + 1 else q)
            else q).

(** [format!("{:.*}", 2, x)] for an [f32] [x]. *)
Definition f32_format_prec2 (x : f32) : string :=
  match x with
  | S754_zero s => if s then "-0.00" else "0.00"
  | S754_infinity s => if s then "-inf" else "inf"
  | S754_nan => "NaN"
  | S754_finite s m e => fixed2_of_scaled s (f32_scaled100 m e)
  end.

(** The binary32 instance; [f32::sin_cos] is the platform's [libm] and is
    kept as a parameter [sc]. *)
Definition f32_real (sc : f32 -> f32 * f32) : NReal f32 := {|
  fadd := f32_add; fsub := f32_sub; fmul := f32_mul; fdiv := f32_div;
  fzero := S754_zero false; fone := f32_of_Z 1; ftwo := f32_of_Z 2;
  flit01 := f32_lit01; sin_cos := sc; format_prec2 := f32_format_prec2
|}.

(** The exact rational value of a finite binary32 number. *)
Definition f32_val (x : f32) : Q :=
  match x with
  | S754_finite s m e =>
      let mag := if Z.leb 0 e then inject_Z (Zpos m * 2 ^ e)
                 else Qmake (Zpos m) (Z.to_pos (2 ^ (- e))) in
      if s then Qopp mag else mag
  | _ => 0%Q
  end.

(** ** The exact real instance *)

Definition R_format_prec2 (x : R) : string :=
  let neg := if Rlt_dec x 0 then true else false in
  let y := (100 * Rabs x)%R in
  let n := Int_part y in
  let r := (y - IZR n)%R in
  fixed2_of_scaled neg
    (Z.to_N (if Rlt_dec (/2) r then n + 1
             else if Req_EM_T r (/2) then (if Z.odd n then n + 1 else n)
             else n)).

#[local] Instance R_real : NReal R := {|
  fadd := Rplus; fsub := Rminus; fmul := Rmult; fdiv := Rdiv;
  fzero := 0%R; fone := 1%R; ftwo := 2%R; flit01 := (/10)%R;
  sin_cos := fun x => (sin x, cos x); format_prec2 := R_format_prec2
|}.

(** ** Views of the parts of [run] *)

Section Parts.
Context {F : Type} `{NReal F}.

(** The incremental rotation of a tick. *)
Definition delta_rot_of (w : World F) : Quaternion F :=
  from_axis_angle z_axis (fmul flit01 (delta_seconds (time w))).

(** The cache after the resolution step of a tick. *)
Definition resolved_display (sys : ExampleSystem) (w : World F) : option Entity :=
  match fps_display sys with
  | None => match finder w "fps_text" with
            | Some fps_entity => Some fps_entity
            | None => None
            end
  | Some e => Some e
  end.

(** A world with its frame number replaced. *)
Definition with_frame (w : World F) (n : nat) : World F :=
  mkWorld (mkTime (delta_seconds (time w)) n) (camera w) (transforms w)
    (demo_state w) (ui_text w) (sampled_fps w) (finder w).

(** A world with its accumulated angle replaced. *)
Definition with_angle (w : World F) (a : F) : World F :=
  mkWorld (time w) (camera w) (transforms w) (mkDemoState a) (ui_text w)
    (sampled_fps w) (finder w).

(** The text written on a refreshing tick. *)
Definition fps_string (w : World F) : string := "FPS: " ++ format_prec2 (sampled_fps w).
End Parts.

(** The nearest binary32 number to 62.345, i.e. the [f32] sample [62.345]. *)
Definition f32_62_345 : f32 := f32_div (f32_of_Z 62345) (f32_of_Z 1000).

(** Exact ties are printed as Rust prints them, with the even last digit:
    [60.125] gives ["60.12"], [0.125] gives ["0.12"], [0.375] gives
    ["0.38"], and [-0.0] gives ["-0.00"]. *)
Lemma f32_format_prec2_ties :
  f32_format_prec2 (f32_div (f32_of_Z 481) (f32_of_Z 8)) = "60.12" /\
  f32_format_prec2 (f32_div (f32_of_Z 1) (f32_of_Z 8)) = "0.12" /\
  f32_format_prec2 (f32_div (f32_of_Z 3) (f32_of_Z 8)) = "0.38" /\
  f32_format_prec2 (S754_zero true) = "-0.00".
Proof. vm_compute. repeat split. Qed.

(** ** General lemmas *)

Section Lemmas.
Context {F : Type} `{NReal F}.

Lemma lookup_fold_alter {A} (f : A -> A) (l : list Entity) (m : gmap Entity A) i :
  NoDup l ->
  fold_left (fun m e => alter f e m) l m !! i =
    if decide (i ∈ l) then f <$> m !! i else m !! i.
Proof.
  revert m. induction l as [|a l IH]; intros m Hnd; simpl.
  - destruct (decide (i ∈ [])); [set_solver | done].
  - apply NoDup_cons in Hnd as [Ha Hnd]. rewrite IH by done.
    destruct (decide (a = i)) as [->|Hne].
    + rewrite lookup_alter_eq.
      destruct (decide (i ∈ l)); [done|].
      destruct (decide (i ∈ i :: l)); [done | set_solver].
    + rewrite lookup_alter_ne by done.
      destruct (decide (i ∈ l)), (decide (i ∈ a :: l)); set_solver.
Qed.

Lemma lookup_rotate_cameras (q : Quaternion F) cams
    (ts : gmap Entity (Transform F)) i :
  rotate_cameras q cams ts !! i =
    if decide (i ∈ cams) then rotate_transform q <$> ts !! i else ts !! i.
Proof.
  unfold rotate_cameras, camera_join.
  rewrite lookup_fold_alter by apply NoDup_elements.
  destruct (decide (i ∈ elements (cams ∩ dom ts))) as [Hin|Hin];
    rewrite elem_of_elements in Hin.
  - rewrite decide_True by set_solver. done.
  - destruct (decide (i ∈ cams)); [|done].
    assert (i ∉ dom ts) as Hd by set_solver.
    rewrite not_elem_of_dom in Hd. rewrite Hd. done.
Qed.

Lemma run_transforms sys (w : World F) :
  transforms (snd (run sys w)) =
    rotate_cameras (delta_rot_of w) (camera w) (transforms w).
Proof. reflexivity. Qed.

Lemma run_fps_display sys (w : World F) :
  fps_display (fst (run sys w)) = resolved_display sys w.
Proof. reflexivity. Qed.

Lemma run_ui_text sys (w : World F) :
  ui_text (snd (run sys w)) =
    match resolved_display sys w with
    | Some e =>
        match ui_text w !! e with
        | Some d =>
            if Nat.eqb (Nat.modulo (frame_number (time w)) 20) 0
            then <[e := set_text d (fps_string w)]> (ui_text w)
            else ui_text w
        | None => ui_text w
        end
    | None => ui_text w
    end.
Proof. reflexivity. Qed.
End Lemmas.

(** ** C1: the accumulated angle *)

(** C1 (as stated, refuted): the claim that one tick raises the accumulated
    angle by exactly [0.1 * t] fails for [f32]: at angle [2^24] a tick of
    one second leaves the angle unchanged, whatever [sin_cos] is. *)
Lemma C1_counterexample :
  ~ (exists sc : f32 -> f32 * f32,
       forall (sys : ExampleSystem) (w : World f32),
         (0 <= f32_val (delta_seconds (time w)))%Q ->
         Qeq (f32_val (camera_angle (demo_state (snd (@run f32 (f32_real sc) sys w)))))
             (f32_val (camera_angle (demo_state w)) +
              (1 # 10) * f32_val (delta_seconds (time w)))%Q).
Proof.
  intros [sc Hsc].
  specialize (Hsc example_system_default
    (mkWorld (mkTime (f32_of_Z 1) 0) ∅ ∅ (mkDemoState (f32_of_Z 16777216)) ∅
       (f32_of_Z 60) (fun _ => None))).
  vm_compute in Hsc. specialize (Hsc ltac:(discriminate)). discriminate Hsc.
Qed.

(** C1 (amended): one tick sets the accumulated angle to
    [camera_angle + 0.1 * delta_seconds], with the product and the sum taken
    in the scalar arithmetic ([f32]: each rounded to nearest binary32);
    [DemoState] has no other component. *)
Theorem C1_angle_step {F : Type} `{NReal F} (sys : ExampleSystem) (w : World F) :
  demo_state (snd (run sys w)) =
    mkDemoState (fadd (camera_angle (demo_state w))
                      (fmul flit01 (delta_seconds (time w)))).
Proof. reflexivity. Qed.

(** ** C2: what the update does to a camera's transform *)

(** A camera at [(1, 0, 0)] with the identity orientation, ticked for one
    second over the real numbers. *)
Definition c2_transform : Transform R :=
  mkTransform (mkIso (mkV 1%R 0%R 0%R) quat_identity) (mkV 1%R 1%R 1%R).

Definition c2_world : World R :=
  mkWorld (mkTime 1%R 0) {[0%nat]} {[0%nat := c2_transform]}
    demo_state_default ∅ 60%R (fun _ => None).

(** C2 (as stated, refuted): the update does not leave the translation
    untouched: nalgebra's [UnitQuaternion * Isometry3] rotates the
    translation as well, so the camera at [(1, 0, 0)] moves to
    [(cos 0.1, sin 0.1, 0)] (exact arithmetic), off its old position. *)
Lemma C2_counterexample :
  ~ (forall (sys : ExampleSystem) (w : World R) (e : Entity) (tr tr' : Transform R),
       e ∈ camera w -> transforms w !! e = Some tr ->
       transforms (snd (run sys w)) !! e = Some tr' ->
       translation (isometry tr') = translation (isometry tr) /\
       scale tr' = scale tr).
Proof.
  intros Hc.
  destruct (Hc example_system_default c2_world 0%nat c2_transform
              (rotate_transform (delta_rot_of c2_world) c2_transform))
    as [Ht _].
  - cbn. set_solver.
  - reflexivity.
  - rewrite run_transforms, lookup_rotate_cameras.
    rewrite decide_True by (cbn; set_solver). reflexivity.
  - apply (f_equal vy) in Ht. cbn in Ht.
    set (a := (/ 10 * 1 / 2)%R) in Ht.
    assert (Ha0 : (0 < a)%R) by (unfold a; lra).
    assert (Ha1 : (a < PI / 2)%R) by (pose proof PI2_1; unfold a; lra).
    pose proof (sin_gt_0 a Ha0 ltac:(pose proof PI2_Rlt_PI; lra)) as Hs.
    pose proof (cos_gt_0 a ltac:(lra) Ha1) as Hcs.
    assert (Hy : (2 * sin a * cos a = 0)%R) by (rewrite <- Ht; ring).
    nra.
Qed.

(** C2 (amended): for a camera entity with a transform, the update replaces
    the isometry by [delta_rot ∘ isometry]: the orientation becomes
    [delta_rot * orientation], the translation becomes [delta_rot] applied
    to the translation (the camera orbits the origin about the z-axis), and
    the scale is unchanged. *)
Theorem C2_camera_transform {F : Type} `{NReal F} (sys : ExampleSystem)
    (w : World F) (e : Entity) (tr : Transform F) :
  e ∈ camera w -> transforms w !! e = Some tr ->
  transforms (snd (run sys w)) !! e =
    Some (mkTransform
            (mkIso (quat_mul_vec (delta_rot_of w) (translation (isometry tr)))
                   (quat_mul (delta_rot_of w) (rotation (isometry tr))))
            (scale tr)).
Proof.
  intros Hc Ht. rewrite run_transforms, lookup_rotate_cameras.
  rewrite decide_True by done. rewrite Ht. reflexivity.
Qed.

Lemma C2_camera_transform_witness :
  0%nat ∈ camera c2_world /\ transforms c2_world !! 0%nat = Some c2_transform /\
  transforms (snd (run example_system_default c2_world)) !! 0%nat =
    Some (mkTransform
            (mkIso (quat_mul_vec (delta_rot_of c2_world) (translation (isometry c2_transform)))
                   (quat_mul (delta_rot_of c2_world) (rotation (isometry c2_transform))))
            (scale c2_transform)).
Proof.
  assert (Hc : 0%nat ∈ camera c2_world) by (cbn; set_solver).
  assert (Ht : transforms c2_world !! 0%nat = Some c2_transform) by reflexivity.
  split; [exact Hc | split; [exact Ht |]].
  apply (C2_camera_transform example_system_default c2_world 0%nat c2_transform Hc Ht).
Defined.

(** ** C3: which transforms are updated, and how *)

(** C3: an entity with both a camera and a transform gets the orientation
    [from_axis_angle(z, 0.1 * delta_seconds) * orientation]; an entity
    without a camera keeps its transform, and one without a transform
    still has none. *)
Theorem C3_camera_orientation {F : Type} `{NReal F} (sys : ExampleSystem)
    (w : World F) (e : Entity) :
  (forall tr : Transform F, e ∈ camera w -> transforms w !! e = Some tr ->
     exists tr', transforms (snd (run sys w)) !! e = Some tr' /\
       rotation (isometry tr') =
         quat_mul (from_axis_angle z_axis (fmul flit01 (delta_seconds (time w))))
                  (rotation (isometry tr))) /\
  (e ∉ camera w -> transforms (snd (run sys w)) !! e = transforms w !! e) /\
  (transforms w !! e = None -> transforms (snd (run sys w)) !! e = None).
Proof.
  rewrite run_transforms, lookup_rotate_cameras. split; [|split].
  - intros tr Hc Ht. rewrite decide_True by done. rewrite Ht.
    eexists; split; reflexivity.
  - intros Hc. rewrite decide_False by done. reflexivity.
  - intros Ht. rewrite Ht. destruct (decide _); reflexivity.
Qed.

(** ** Tick sequences *)

Section Ticks.
Context {F : Type} `{NReal F}.

Lemma run_ticks_app (sys : ExampleSystem) (w : World F) (l1 l2 : list (TickInput F)) :
  run_ticks sys w (l1 ++ l2) =
    run_ticks (fst (run_ticks sys w l1)) (snd (run_ticks sys w l1)) l2.
Proof.
  revert sys w. induction l1 as [|i l1 IH]; intros sys w; [reflexivity|].
  cbn [run_ticks app]. destruct (run sys (world_at w i)) as [sys' w'] eqn:E. apply IH.
Qed.

Lemma run_ticks_resolved (sys : ExampleSystem) (w : World F) (l : list (TickInput F)) e :
  fps_display sys = Some e -> fps_display (fst (run_ticks sys w l)) = Some e.
Proof.
  revert sys w. induction l as [|i l IH]; intros sys w He; [exact He|].
  cbn [run_ticks]. destruct (run sys (world_at w i)) as [sys' w'] eqn:E. apply IH.
  replace sys' with (fst (run sys (world_at w i))) by (rewrite E; reflexivity).
  rewrite run_fps_display.
  unfold resolved_display. rewrite He. reflexivity.
Qed.

Lemma run_ticks_unresolved (w : World F) (l : list (TickInput F)) :
  Forall (fun i => tick_finder i "fps_text" = None) l ->
  fps_display (fst (run_ticks example_system_default w l)) = None /\
  ui_text (snd (run_ticks example_system_default w l)) = ui_text w.
Proof.
  revert w. induction l as [|i l IH]; intros w Hl; [split; reflexivity|].
  apply Forall_cons in Hl as [Hi Hl]. cbn [run_ticks].
  pose proof (run_fps_display example_system_default (world_at w i)) as Hs.
  pose proof (run_ui_text example_system_default (world_at w i)) as Hu.
  unfold resolved_display in Hs, Hu. cbn [fps_display example_system_default
    finder world_at] in Hs, Hu. rewrite Hi in Hs, Hu.
  destruct (run example_system_default (world_at w i)) as [[d'] w'] eqn:E.
  cbn in Hs, Hu. subst d'. rewrite <- Hu. apply IH. exact Hl.
Qed.
End Ticks.

(** ** C4: the FPS text is refreshed every 20th frame only *)

(** C4: on a frame whose number is not a multiple of 20 the text store is
    left as it is; with a resolved handle whose entity has a [UiText], over
    the frames 0, 19, 20, 39, 40 the text is written exactly at 0, 20, 40. *)
Theorem C4_refresh_every_20 {F : Type} `{NReal F} (sys : ExampleSystem)
    (w : World F) :
  (Nat.modulo (frame_number (time w)) 20 <> 0%nat ->
     ui_text (snd (run sys w)) = ui_text w) /\
  (forall (e : Entity) (d : UiText F),
     resolved_display sys w = Some e -> ui_text w !! e = Some d ->
     Forall (fun n => ui_text (snd (run sys (with_frame w n))) =
               if decide (n ∈ [0; 20; 40]%nat)
               then <[e := set_text d (fps_string w)]> (ui_text w)
               else ui_text w)
       [0; 19; 20; 39; 40]%nat).
Proof.
  split.
  - intros Hn. rewrite run_ui_text.
    destruct (resolved_display sys w) as [e|]; [|reflexivity].
    destruct (ui_text w !! e); [|reflexivity].
    apply Nat.eqb_neq in Hn. rewrite Hn. reflexivity.
  - intros e d He Hd.
    repeat constructor; rewrite run_ui_text;
      change (resolved_display sys (with_frame w _)) with (resolved_display sys w);
      rewrite He; cbn [ui_text with_frame]; rewrite Hd; reflexivity.
Qed.

(** ** C5: the handle cache is resolved once and kept *)

(** C5: a resolved cache is kept by every tick, whatever the lookup says;
    an unresolved cache takes the lookup's answer; over a run from the
    default system whose first successful lookup is at tick [i] (returning
    [e]), the cache is unresolved before [i], becomes [Some e] at [i] and
    stays [Some e] through every later tick. *)
Theorem C5_cache_resolved_once {F : Type} `{NReal F} :
  (forall (sys : ExampleSystem) (w : World F) (e : Entity),
     fps_display sys = Some e -> fps_display (fst (run sys w)) = Some e) /\
  (forall w : World F,
     fps_display (fst (run example_system_default w)) = finder w "fps_text") /\
  (forall (w : World F) (pre post : list (TickInput F)) (i : TickInput F) (e : Entity),
     Forall (fun j => tick_finder j "fps_text" = None) pre ->
     tick_finder i "fps_text" = Some e ->
     fps_display (fst (run_ticks example_system_default w pre)) = None /\
     fps_display (fst (run_ticks example_system_default w (pre ++ [i]))) = Some e /\
     fps_display (fst (run_ticks example_system_default w (pre ++ i :: post))) = Some e).
Proof.
  split; [|split].
  - intros sys w e He. rewrite run_fps_display. unfold resolved_display.
    rewrite He. reflexivity.
  - intros w. rewrite run_fps_display. unfold resolved_display. cbn.
    destruct (finder w "fps_text"); reflexivity.
  - intros w pre post i e Hpre Hi.
    destruct (run_ticks_unresolved w pre Hpre) as [Hnone _].
    assert (Hi' : fps_display (fst (run_ticks example_system_default w (pre ++ [i])))
                  = Some e).
    { rewrite run_ticks_app. cbn [run_ticks].
      pose proof (run_fps_display (fst (run_ticks example_system_default w pre))
                    (world_at (snd (run_ticks example_system_default w pre)) i)) as Hs.
      unfold resolved_display in Hs. rewrite Hnone in Hs. cbn [finder world_at] in Hs.
      rewrite Hi in Hs.
      destruct (run _ _) as [s' w'] eqn:E. exact Hs. }
    split; [exact Hnone | split; [exact Hi' |]].
    change (pre ++ i :: post) with (pre ++ [i] ++ post). rewrite app_assoc.
    rewrite run_ticks_app. apply run_ticks_resolved. exact Hi'.
Qed.

(** ** C6: the text written *)

(** C6: on a refreshing tick the handle's text becomes ["FPS: "] followed
    by the [f32] sample printed with two decimals; for the sample 62.345
    (the binary32 number 62.345001220703125) it is exactly ["FPS: 62.35"]. *)
Theorem C6_fps_text (sc : f32 -> f32 * f32) (sys : ExampleSystem)
    (w : World f32) (e : Entity) (d : UiText f32) :
  fps_display (fst (@run f32 (f32_real sc) sys w)) = Some e ->
  ui_text w !! e = Some d ->
  Nat.modulo (frame_number (time w)) 20 = 0%nat ->
  ui_text (snd (@run f32 (f32_real sc) sys w)) !! e =
    Some (set_text d ("FPS: " ++ f32_format_prec2 (sampled_fps w))) /\
  (sampled_fps w = f32_62_345 ->
     ui_text (snd (@run f32 (f32_real sc) sys w)) !! e =
       Some (set_text d "FPS: 62.35")).
Proof.
  intros He Hd Hn. rewrite run_fps_display in He.
  assert (Hu : ui_text (snd (@run f32 (f32_real sc) sys w)) !! e =
               Some (set_text d ("FPS: " ++ f32_format_prec2 (sampled_fps w)))).
  { rewrite run_ui_text, He, Hd. apply Nat.eqb_eq in Hn. rewrite Hn.
    apply lookup_insert_eq. }
  split; [exact Hu |]. intros Hf. rewrite Hu, Hf. vm_compute. reflexivity.
Qed.

Definition c6_world : World f32 :=
  mkWorld (mkTime (f32_of_Z 1) 40) ∅ ∅ (mkDemoState (S754_zero false))
    {[7%nat := mkUiText "FPS: 0.00" (f32_of_Z 12) false]} f32_62_345
    (fun s => if String.eqb s "fps_text" then Some 7%nat else None).

Definition c6_sin_cos (x : f32) : f32 * f32 := (x, f32_of_Z 1).

Lemma C6_fps_text_witness :
  (fps_display (fst (@run f32 (f32_real c6_sin_cos) example_system_default c6_world))
     = Some 7%nat) /\
  (ui_text c6_world !! 7%nat = Some (mkUiText "FPS: 0.00" (f32_of_Z 12) false)) /\
  (Nat.modulo (frame_number (time c6_world)) 20 = 0%nat) /\
  (ui_text (snd (@run f32 (f32_real c6_sin_cos) example_system_default c6_world))
     !! 7%nat = Some (mkUiText "FPS: 62.35" (f32_of_Z 12) false)).
Proof.
  assert (He : fps_display (fst (@run f32 (f32_real c6_sin_cos) example_system_default
                                   c6_world)) = Some 7%nat) by (vm_compute; reflexivity).
  assert (Hd : ui_text c6_world !! 7%nat =
               Some (mkUiText "FPS: 0.00" (f32_of_Z 12) false)) by reflexivity.
  assert (Hn : Nat.modulo (frame_number (time c6_world)) 20 = 0%nat) by reflexivity.
  split; [exact He | split; [exact Hd | split; [exact Hn |]]].
  exact (proj2 (C6_fps_text c6_sin_cos example_system_default c6_world 7%nat
           (mkUiText "FPS: 0.00" (f32_of_Z 12) false) He Hd Hn) eq_refl).
Defined.

(** ** C7: a lookup that never succeeds *)

(** C7: from the default system, over ticks on which [find("fps_text")]
    never succeeds, the text store is never changed and the cache stays
    unresolved; every tick returns normally ([run] is total). *)
Theorem C7_never_resolved {F : Type} `{NReal F} (w : World F)
    (ticks : list (TickInput F)) :
  Forall (fun i => tick_finder i "fps_text" = None) ticks ->
  ui_text (snd (run_ticks example_system_default w ticks)) = ui_text w /\
  fps_display (fst (run_ticks example_system_default w ticks)) = None.
Proof.
  intros Hl. destruct (run_ticks_unresolved w ticks Hl). split; assumption.
Qed.

Definition c7_tick : TickInput f32 :=
  mkTickInput (mkTime (f32_of_Z 1) 0) ∅ (f32_of_Z 60) (fun _ => None).

Lemma C7_never_resolved_witness :
  ui_text (snd (@run_ticks f32 (f32_real c6_sin_cos) example_system_default c6_world
                  [c7_tick; c7_tick])) = ui_text c6_world.
Proof.
  assert (Hl : Forall (fun i => tick_finder i "fps_text" = None) [c7_tick; c7_tick])
    by (repeat constructor).
  exact (proj1 (@C7_never_resolved f32 (f32_real c6_sin_cos) c6_world
                  [c7_tick; c7_tick] Hl)).
Defined.

(** ** C8: missing inputs are silent no-ops *)

(** C8: [run] is a total function whose outputs are computed
    independently (angle, transforms, cache, texts); with no camera the
    transforms are unchanged, with no resolved handle or no [UiText] on the
    handle's entity the texts are unchanged, and in each case the other
    outputs are those of the decomposition. *)
Theorem C8_silent_no_ops {F : Type} `{NReal F} (sys : ExampleSystem) (w : World F) :
  run sys w =
    (mkExampleSystem (resolved_display sys w),
     mkWorld (time w) (camera w)
       (rotate_cameras (delta_rot_of w) (camera w) (transforms w))
       (mkDemoState (fadd (camera_angle (demo_state w))
                          (fmul flit01 (delta_seconds (time w)))))
       (match resolved_display sys w with
        | Some e =>
            match ui_text w !! e with
            | Some d =>
                if Nat.eqb (Nat.modulo (frame_number (time w)) 20) 0
                then <[e := set_text d (fps_string w)]> (ui_text w)
                else ui_text w
            | None => ui_text w
            end
        | None => ui_text w
        end)
       (sampled_fps w) (finder w)) /\
  (camera w = ∅ -> transforms (snd (run sys w)) = transforms w) /\
  (resolved_display sys w = None -> ui_text (snd (run sys w)) = ui_text w) /\
  (forall e : Entity, resolved_display sys w = Some e -> ui_text w !! e = None ->
     ui_text (snd (run sys w)) = ui_text w).
Proof.
  split; [reflexivity | split; [| split]].
  - intros Hc. rewrite run_transforms. unfold rotate_cameras, camera_join.
    rewrite Hc, intersection_empty_l_L, elements_empty. reflexivity.
  - intros Hr. rewrite run_ui_text, Hr. reflexivity.
  - intros e Hr Hd. rewrite run_ui_text, Hr, Hd. reflexivity.
Qed.

(** ** C10: the accumulated angle is never read back *)

(** C10: two runs on worlds that differ only in the stored angle give the
    same cache, the same transforms and the same texts. *)
Theorem C10_angle_write_only {F : Type} `{NReal F} (sys : ExampleSystem)
    (w : World F) (a : F) :
  fst (run sys (with_angle w a)) = fst (run sys w) /\
  transforms (snd (run sys (with_angle w a))) = transforms (snd (run sys w)) /\
  ui_text (snd (run sys (with_angle w a))) = ui_text (snd (run sys w)).
Proof. split; [|split]; reflexivity. Qed.

(** ** C9: composing the per-tick rotations *)

Section TickRotation.
Context {F : Type} `{NReal F}.

(** The incremental rotation of a tick,
    [from_axis_angle(z, 0.1 * delta_seconds)]. *)
Definition tick_delta_rot (i : TickInput F) : Quaternion F :=
  from_axis_angle z_axis (fmul flit01 (delta_seconds (tick_time i))).

(** The orientation reached from [q] over [ticks]: each tick's rotation
    multiplied on the left, in tick order, in the scalar arithmetic. *)
Definition compose_tick_rots (ticks : list (TickInput F)) (q : Quaternion F)
  : Quaternion F :=
  fold_left (fun q i => quat_mul (tick_delta_rot i) q) ticks q.

Lemma run_ticks_camera_rotation (ticks : list (TickInput F)) :
  forall (sys : ExampleSystem) (w : World F) (e : Entity) (tr : Transform F),
  transforms w !! e = Some tr -> Forall (fun i => e ∈ tick_camera i) ticks ->
  exists tr', transforms (snd (run_ticks sys w ticks)) !! e = Some tr' /\
    rotation (isometry tr') = compose_tick_rots ticks (rotation (isometry tr)) /\
    scale tr' = scale tr.
Proof.
  induction ticks as [|i ticks IH]; intros sys w e tr Ht Hc.
  - exists tr. done.
  - apply Forall_cons in Hc as [Hi Hc]. cbn [run_ticks].
    pose proof (run_transforms sys (world_at w i)) as Hts.
    destruct (run sys (world_at w i)) as [sys' w'] eqn:E. cbn [snd] in Hts.
    destruct (IH sys' w' e (rotate_transform (delta_rot_of (world_at w i)) tr))
      as (tr' & Hl & Hr & Hs).
    + rewrite Hts, lookup_rotate_cameras, decide_True by exact Hi.
      cbn [world_at transforms]. rewrite Ht. reflexivity.
    + exact Hc.
    + exists tr'. split; [exact Hl|]. split; [exact Hr | exact Hs].
Qed.

Lemma compose_tick_rots_cons (i : TickInput F) (l : list (TickInput F))
    (q : Quaternion F) :
  compose_tick_rots (i :: l) q = compose_tick_rots l (quat_mul (tick_delta_rot i) q).
Proof. reflexivity. Qed.

(** A rotation that a tick leaves unchanged stays unchanged over any
    number of such ticks. *)
Lemma compose_tick_rots_fixed (i : TickInput F) (q : Quaternion F) (n : nat) :
  quat_mul (tick_delta_rot i) q = q -> compose_tick_rots (replicate n i) q = q.
Proof.
  intros Hq. induction n as [|n IH]; [done|].
  unfold compose_tick_rots in *. cbn [replicate fold_left]. rewrite Hq. exact IH.
Qed.
End TickRotation.

(** C9 (amended): over any tick sequence during which an entity keeps its
    camera, its orientation ends at the ordered product of the per-tick
    rotations [from_axis_angle(z, 0.1 * dt)], each multiplied on the left
    in the scalar arithmetic ([f32] for the program), and its scale is
    unchanged. *)
Theorem C9_rotation_product {F : Type} `{NReal F} (sys : ExampleSystem)
    (w : World F) (ticks : list (TickInput F)) (e : Entity) (tr : Transform F) :
  transforms w !! e = Some tr -> Forall (fun i => e ∈ tick_camera i) ticks ->
  exists tr', transforms (snd (run_ticks sys w ticks)) !! e = Some tr' /\
    rotation (isometry tr') = compose_tick_rots ticks (rotation (isometry tr)) /\
    scale tr' = scale tr.
Proof. intros Ht Hc. exact (run_ticks_camera_rotation ticks sys w e tr Ht Hc). Qed.

(** [f32::sin_cos] on small arguments: for [|x| < 2^-12] the correctly
    rounded [sinf x] is [x] and [cosf x] is [1], since the first terms
    dropped, [x^3/6] and [x^2/2], are below half an ulp.  Other arguments
    give NaN here; none are used below. *)
Definition small_sin_cos (x : f32) : f32 * f32 :=
  match x with
  | S754_zero _ => (x, f32_of_Z 1)
  | S754_finite _ _ _ =>
      if Qle_bool (1 # 4096) (Qabs (f32_val x)) then (S754_nan, S754_nan)
      else (x, f32_of_Z 1)
  | _ => (S754_nan, S754_nan)
  end.

Section C9f32.
Definition c9_real : NReal f32 := f32_real small_sin_cos.
#[local] Existing Instance c9_real.

(** A camera at the origin with the identity orientation. *)
Definition c9_transform : Transform f32 :=
  mkTransform (mkIso (mkV (S754_zero false) (S754_zero false) (S754_zero false))
                 quat_identity)
    (mkV (f32_of_Z 1) (f32_of_Z 1) (f32_of_Z 1)).

Definition c9_world : World f32 :=
  mkWorld (mkTime (f32_of_Z 1) 0) {[0%nat]} {[0%nat := c9_transform]}
    (mkDemoState (S754_zero false)) ∅ (f32_of_Z 60) (fun _ => None).

(** A tick of [2^-8] s and a tick of [2^-33] s, both with the camera. *)
Definition c9_first : TickInput f32 :=
  mkTickInput (mkTime (binary_normalize prec32 emax32 1 (-8) false) 0) {[0%nat]}
    (f32_of_Z 60) (fun _ => None).

Definition c9_small : TickInput f32 :=
  mkTickInput (mkTime (binary_normalize prec32 emax32 1 (-33) false) 0) {[0%nat]}
    (f32_of_Z 60) (fun _ => None).

(** [2559 * 2^25] ticks of [2^-33] s after the first make 10 s in all. *)
Definition c9_n : nat := N.to_nat (2559 * 2 ^ 25).

(** C9 (as stated, refuted): in [f32] the per-tick rotations do not
    compose to the rotation by the total angle.  From the identity, a tick
    of [2^-8] s followed by [2559 * 2^25] ticks of [2^-33] s (exactly 10 s
    in all) ends with the orientation [w = 1], [k < 0.001], a rotation of
    less than 0.002 rad, not 1 rad ([w = cos 0.5], [k = sin 0.5]): after
    the first tick each [2^-33] s increment is below half an ulp of [k]
    and is rounded away. *)
Lemma C9_counterexample :
  (f32_val (delta_seconds (tick_time c9_first)) +
     inject_Z (Z.of_nat c9_n) * f32_val (delta_seconds (tick_time c9_small)) == 10)%Q /\
  transforms c9_world !! 0%nat = Some c9_transform /\
  rotation (isometry c9_transform) = quat_identity /\
  Forall (fun i => 0%nat ∈ tick_camera i) (c9_first :: replicate c9_n c9_small) /\
  exists tr',
    transforms (snd (run_ticks example_system_default c9_world
                       (c9_first :: replicate c9_n c9_small))) !! 0%nat = Some tr' /\
    f32_val (qw (rotation (isometry tr'))) == 1 /\
    (f32_val (qk (rotation (isometry tr'))) < 1 # 1000)%Q.
Proof.
  assert (Ht : transforms c9_world !! 0%nat = Some c9_transform) by reflexivity.
  assert (Hc : Forall (fun i => 0%nat ∈ tick_camera i)
                 (c9_first :: replicate c9_n c9_small)).
  { constructor; [cbn; set_solver|]. apply Forall_replicate. cbn. set_solver. }
  split; [|split; [exact Ht | split; [reflexivity | split; [exact Hc|]]]].
  - unfold c9_n. rewrite N_nat_Z. vm_compute. reflexivity.
  - destruct (run_ticks_camera_rotation (c9_first :: replicate c9_n c9_small)
                example_system_default c9_world 0%nat c9_transform Ht Hc)
      as (tr' & Hl & Hr & _).
    exists tr'. split; [exact Hl|]. rewrite Hr.
    rewrite compose_tick_rots_cons.
    rewrite compose_tick_rots_fixed by (vm_compute; reflexivity).
    split; vm_compute; reflexivity.
Qed.

Lemma C9_rotation_product_witness :
  transforms c9_world !! 0%nat = Some c9_transform /\
  Forall (fun i => 0%nat ∈ tick_camera i) [c9_first; c9_small] /\
  exists tr', transforms (snd (run_ticks example_system_default c9_world
                                 [c9_first; c9_small])) !! 0%nat = Some tr' /\
    rotation (isometry tr') = compose_tick_rots [c9_first; c9_small] quat_identity.
Proof.
  assert (Ht : transforms c9_world !! 0%nat = Some c9_transform) by reflexivity.
  assert (Hc : Forall (fun i => 0%nat ∈ tick_camera i) [c9_first; c9_small]).
  { constructor; [cbn; set_solver|]. constructor; [cbn; set_solver|]. constructor. }
  split; [exact Ht | split; [exact Hc|]].
  destruct (C9_rotation_product example_system_default c9_world [c9_first; c9_small]
              0%nat c9_transform Ht Hc) as (tr' & Hl & Hr & _).
  exists tr'. split; [exact Hl | exact Hr].
Defined.
End C9f32.

(** * Further properties of the system *)

(** ** Stores keep their entities *)

Section MoreSystem.
Context {F : Type} `{NReal F}.

Lemma run_keeps_domains (sys : ExampleSystem) (w : World F) :
  dom (transforms (snd (run sys w))) = dom (transforms w) /\
  dom (ui_text (snd (run sys w))) = dom (ui_text w).
Proof.
  split.
  - apply set_eq. intros e. rewrite !elem_of_dom, run_transforms,
      lookup_rotate_cameras.
    destruct (decide (e ∈ camera w)); [|done].
    destruct (transforms w !! e); cbn; split; intros []; eauto; discriminate.
  - rewrite run_ui_text.
    destruct (resolved_display sys w) as [e|]; [|done].
    destruct (ui_text w !! e) as [d|] eqn:Hd; [|done].
    destruct (Nat.eqb _ 0); [|done].
    rewrite dom_insert_L. apply set_eq. intros x. rewrite elem_of_union,
      elem_of_singleton. split; [intros [->|Hx]; [|done] | intros Hx; by right].
    apply elem_of_dom. by rewrite Hd.
Qed.

(** X1: a tick never adds or removes a [Transform] or a [UiText]: it only
    overwrites components that are already there. *)
Theorem X1_run_keeps_domains (sys : ExampleSystem) (w : World F) :
  dom (transforms (snd (run sys w))) = dom (transforms w) /\
  dom (ui_text (snd (run sys w))) = dom (ui_text w).
Proof. apply run_keeps_domains. Qed.

(** X2: over any sequence of ticks in which an entity never holds a
    camera, its transform (or its absence) is never changed. *)
Theorem X2_non_camera_transform_fixed (sys : ExampleSystem) (w : World F)
    (ticks : list (TickInput F)) (e : Entity) :
  Forall (fun i => e ∉ tick_camera i) ticks ->
  transforms (snd (run_ticks sys w ticks)) !! e = transforms w !! e.
Proof.
  revert sys w. induction ticks as [|i ticks IH]; intros sys w Hc; [done|].
  apply Forall_cons in Hc as [Hi Hc]. cbn [run_ticks].
  pose proof (run_transforms sys (world_at w i)) as Hts.
  destruct (run sys (world_at w i)) as [sys' w'] eqn:E. cbn [snd] in Hts.
  rewrite IH by exact Hc. rewrite Hts, lookup_rotate_cameras.
  rewrite decide_False by exact Hi. reflexivity.
Qed.

Lemma run_ui_text_frame (sys : ExampleSystem) (w : World F) (e' : Entity) :
  (resolved_display sys w <> Some e' ->
     ui_text (snd (run sys w)) !! e' = ui_text w !! e') /\
  (forall d' : UiText F, ui_text (snd (run sys w)) !! e' = Some d' ->
     exists d, ui_text w !! e' = Some d /\
       font_size d' = font_size d /\ password d' = password d).
Proof.
  rewrite run_ui_text. split.
  - intros Hne. destruct (resolved_display sys w) as [e|]; [|done].
    destruct (ui_text w !! e); [|done]. destruct (Nat.eqb _ 0); [|done].
    rewrite lookup_insert_ne; [done|]. intros ->. by apply Hne.
  - intros d' Hd'. destruct (resolved_display sys w) as [e|];
      [|exists d'; done].
    destruct (ui_text w !! e) as [d|] eqn:Hd; [|exists d'; done].
    destruct (Nat.eqb _ 0); [|exists d'; done].
    destruct (decide (e = e')) as [->|Hne].
    + rewrite lookup_insert_eq in Hd'. injection Hd' as <-.
      exists d. done.
    + rewrite lookup_insert_ne in Hd' by done. exists d'. done.
Qed.

(** X3: a tick writes the [UiText] of the handle's entity only, writes
    nothing but its [text], and leaves every other entity's [UiText] as it
    is. *)
Theorem X3_run_ui_text_frame (sys : ExampleSystem) (w : World F) (e' : Entity) :
  (resolved_display sys w <> Some e' ->
     ui_text (snd (run sys w)) !! e' = ui_text w !! e') /\
  (forall d' : UiText F, ui_text (snd (run sys w)) !! e' = Some d' ->
     exists d, ui_text w !! e' = Some d /\
       font_size d' = font_size d /\ password d' = password d).
Proof. apply run_ui_text_frame. Qed.

(** X4: over any sequence of ticks, no [UiText] appears or disappears and
    the [font_size] and [password] of every [UiText] stay as they were. *)
Theorem X4_ticks_keep_ui_fields (sys : ExampleSystem) (w : World F)
    (ticks : list (TickInput F)) (e : Entity) :
  (is_Some (ui_text (snd (run_ticks sys w ticks)) !! e) <-> is_Some (ui_text w !! e)) /\
  (forall d' : UiText F, ui_text (snd (run_ticks sys w ticks)) !! e = Some d' ->
     exists d, ui_text w !! e = Some d /\
       font_size d' = font_size d /\ password d' = password d).
Proof.
  revert sys w. induction ticks as [|i ticks IH]; intros sys w.
  - split; [done|]. intros d' Hd'. exists d'. done.
  - cbn [run_ticks].
    pose proof (proj2 (run_keeps_domains sys (world_at w i))) as Hdom.
    pose proof (proj2 (run_ui_text_frame sys (world_at w i) e)) as Hfr.
    destruct (run sys (world_at w i)) as [sys' w'] eqn:E. cbn [snd] in Hdom, Hfr.
    destruct (IH sys' w') as [IH1 IH2]. split.
    + rewrite IH1, <- !elem_of_dom, Hdom. done.
    + intros d' Hd'. destruct (IH2 d' Hd') as (d1 & Hd1 & Hf1 & Hp1).
      destruct (Hfr d1 Hd1) as (d & Hd & Hf & Hp).
      exists d. cbn in Hd. rewrite Hf1, Hp1. done.
Qed.
End MoreSystem.

(** * The states of the example: [Loading] and [Example]

    The ECS world that [Loading] and [Example] act on, with the storages
    they touch, and their [SimpleState] methods
    (src/examples/transparent_texture/main.rs, lines 33-119).  An entity
    is identified by an allocation counter: a specs entity (index and
    generation) is never equal to one allocated earlier. *)

(** f32 literals of the source ([-5.0], [5.0], [8.0]). *)
Class NLit (F : Type) := { flit : Z -> F }.

#[local] Instance f32_lit : NLit f32 := {| flit := f32_of_Z |}.
#[local] Instance R_lit : NLit R := {| flit := IZR |}.

(** An asset handle. *)
Definition Handle := nat.

(** Where a loaded asset comes from. *)
Inductive AssetSource :=
  | FromFile (path : string)
  | FromPlaneMesh.

(** amethyst's [Completion] *)
Module Completion.
Inductive t := Failed | Complete | Loading.
End Completion.

Section States.
Context {F : Type} `{NReal F} `{NLit F}.

(** [TextureOffset { u: (f32, f32), v: (f32, f32) }] *)
Record TextureOffset := mkTextureOffset { off_u : F * F; off_v : F * F }.

(** amethyst 0.10's [Material]. *)
Record Material := mkMaterial {
  alpha_cutoff : F;
  albedo : Handle; albedo_offset : TextureOffset;
  emission : Handle; emission_offset : TextureOffset;
  normal : Handle; normal_offset : TextureOffset;
  metallic : Handle; metallic_offset : TextureOffset;
  roughness : Handle; roughness_offset : TextureOffset;
  ambient_occlusion : Handle; ambient_occlusion_offset : TextureOffset;
  caveat : Handle; caveat_offset : TextureOffset
}.

(** [Material { albedo, ..mat_defaults.clone() }] *)
Definition with_albedo (d : Material) (a : Handle) : Material :=
  mkMaterial (alpha_cutoff d) a (albedo_offset d) (emission d) (emission_offset d)
    (normal d) (normal_offset d) (metallic d) (metallic_offset d)
    (roughness d) (roughness_offset d) (ambient_occlusion d)
    (ambient_occlusion_offset d) (caveat d) (caveat_offset d).

(** [ProgressCounter]: the number of assets registered with it. *)
Record ProgressCounter := mkProgressCounter { num_assets : nat }.

Record EcsWorld := mkEcs {
  next_entity : nat;
  alive : gset Entity;
  next_handle : nat;
  assets : gmap Handle AssetSource;
  scenes : gmap Entity Handle;
  ui_prefabs : gmap Entity Handle;
  ecs_transforms : gmap Entity (Transform F);
  meshes : gmap Entity Handle;
  materials : gmap Entity Material;
  transparent : gset Entity;
  cameras : gset Entity;
  ui_ids : gmap Entity string;
  ui_texts : gmap Entity (UiText F);
  material_defaults : Material
}.

(** Storage keys are live entities, live entities were allocated. *)
Definition ecs_wf (w : EcsWorld) : Prop :=
  (forall e, e ∈ alive w -> e < next_entity w)%nat /\
  dom (scenes w) ⊆ alive w /\ dom (ui_prefabs w) ⊆ alive w /\
  dom (ecs_transforms w) ⊆ alive w /\ dom (meshes w) ⊆ alive w /\
  dom (materials w) ⊆ alive w /\ transparent w ⊆ alive w /\
  cameras w ⊆ alive w /\ dom (ui_ids w) ⊆ alive w /\ dom (ui_texts w) ⊆ alive w.

(** [world.create_entity()]: a fresh, live entity. *)
Definition create_entity (w : EcsWorld) : Entity * EcsWorld :=
  (next_entity w,
   mkEcs (S (next_entity w)) ({[next_entity w]} ∪ alive w) (next_handle w) (assets w)
     (scenes w) (ui_prefabs w) (ecs_transforms w) (meshes w) (materials w)
     (transparent w) (cameras w) (ui_ids w) (ui_texts w) (material_defaults w)).

(** [Loader::load] / [load_from_data]: a fresh handle for the asset. *)
Definition load_asset (w : EcsWorld) (src : AssetSource) : Handle * EcsWorld :=
  (next_handle w,
   mkEcs (next_entity w) (alive w) (S (next_handle w))
     (<[next_handle w := src]> (assets w))
     (scenes w) (ui_prefabs w) (ecs_transforms w) (meshes w) (materials w)
     (transparent w) (cameras w) (ui_ids w) (ui_texts w) (material_defaults w)).

Definition track (p : ProgressCounter) : ProgressCounter :=
  mkProgressCounter (S (num_assets p)).

(** [UiCreator::create(path, progress)]: loads the UI prefab, tracked by
    [progress], and builds an entity holding its handle. *)
Definition ui_create (w : EcsWorld) (path : string) (p : ProgressCounter)
  : EcsWorld * ProgressCounter :=
  let '(h, w1) := load_asset w (FromFile path) in
  let '(e, w2) := create_entity w1 in
  (mkEcs (next_entity w2) (alive w2) (next_handle w2) (assets w2)
     (scenes w2) (<[e := h]> (ui_prefabs w2)) (ecs_transforms w2) (meshes w2)
     (materials w2) (transparent w2) (cameras w2) (ui_ids w2) (ui_texts w2)
     (material_defaults w2),
   track p).

(** [UiFinder::find(id)]: a live entity whose [UiTransform] has that id,
    [None] when there is none.  When several have it, specs' join returns
    the one of lowest index; the entities here are allocation counters, not
    specs indices, so the scan below takes the earliest allocated one, and
    no property below depends on which one is taken. *)
Definition ui_find (w : EcsWorld) (id : string) : option Entity :=
  head (filter (fun e => e ∈ alive w /\ ui_ids w !! e = Some id)
           (seq 0 (next_entity w))).

(** [world.delete_entity(e)]: removes a live entity and all its
    components; [Err] (here [false]) for an entity that is not alive. *)
Definition delete_entity (w : EcsWorld) (e : Entity) : bool * EcsWorld :=
  if bool_decide (e ∈ alive w) then
    (true,
     mkEcs (next_entity w) (alive w ∖ {[e]}) (next_handle w) (assets w)
       (delete e (scenes w)) (delete e (ui_prefabs w)) (delete e (ecs_transforms w))
       (delete e (meshes w)) (delete e (materials w)) (transparent w ∖ {[e]})
       (cameras w ∖ {[e]}) (delete e (ui_ids w)) (delete e (ui_texts w))
       (material_defaults w))
  else (false, w).

(** [#[derive(Default)] struct Loading { progress, prefab }] *)
Record Loading := mkLoading { progress : ProgressCounter; prefab : option Handle }.

Definition loading_default : Loading := mkLoading (mkProgressCounter 0) None.

(** [struct Example { scene: Handle<Prefab<MyPrefabData>> }] *)
Record Example := mkExample { scene : Handle }.

(** amethyst's [Trans] as returned by [update]. *)
Inductive Trans := TransNone | TransQuit | TransSwitch (next : Example).

(** [Loading::on_start] *)
Definition loading_on_start (st : Loading) (w : EcsWorld) : Loading * EcsWorld :=
  let '(h, w1) := load_asset w (FromFile "prefab/renderable.ron") in
  let p1 := track (progress st) in
  let '(w2, p2) := ui_create w1 "ui/fps.ron" p1 in
  let '(w3, p3) := ui_create w2 "ui/loading.ron" p2 in
  (mkLoading p3 (Some h), w3).

(** [Loading::update], given what [self.progress.complete()] returned
    this frame; [None] is the panic of [self.prefab.as_ref().unwrap()]. *)
Definition loading_update (c : Completion.t) (st : Loading) (w : EcsWorld)
  : option (Trans * EcsWorld) :=
  match c with
  | Completion.Failed => Some (TransQuit, w)
  | Completion.Complete =>
      let w' := match ui_find w "loading" with
                | Some entity => snd (delete_entity w entity)
                | None => w
                end in
      match prefab st with
      | Some h => Some (TransSwitch (mkExample h), w')
      | None => None
      end
  | Completion.Loading => Some (TransNone, w)
  end.

(** [Transform::default()]: identity isometry, unit scale. *)
Definition transform_default : Transform F :=
  mkTransform (mkIso (mkV fzero fzero fzero) quat_identity) (mkV fone fone fone).

(** [transform.set_xyz(x, y, z)] *)
Definition set_xyz (t : Transform F) (x y z : F) : Transform F :=
  mkTransform (mkIso (mkV x y z) (rotation (isometry t))) (scale t).

(** [transform.set_scale(x, y, z)] *)
Definition set_scale (t : Transform F) (x y z : F) : Transform F :=
  mkTransform (isometry t) (mkV x y z).

(** The transform of the transparent plane. *)
Definition plane_transform : Transform F :=
  set_scale (set_xyz transform_default (flit (-5)) (flit (-5)) (flit 5))
    (flit 8) (flit 8) (flit 8).

(** [Example::on_start] *)
Definition example_on_start (ex : Example) (w : EcsWorld) : EcsWorld :=
  let '(e0, w0) := create_entity w in
  let w1 := mkEcs (next_entity w0) (alive w0) (next_handle w0) (assets w0)
              (<[e0 := scene ex]> (scenes w0)) (ui_prefabs w0) (ecs_transforms w0)
              (meshes w0) (materials w0) (transparent w0) (cameras w0) (ui_ids w0)
              (ui_texts w0) (material_defaults w0) in
  let mat_defaults := material_defaults w1 in
  let '(mesh, w2) := load_asset w1 FromPlaneMesh in
  let '(alb, w3) := load_asset w2 (FromFile "texture/logo_transparent.png") in
  let mtl := with_albedo mat_defaults alb in
  let '(e1, w4) := create_entity w3 in
  mkEcs (next_entity w4) (alive w4) (next_handle w4) (assets w4) (scenes w4)
    (ui_prefabs w4) (<[e1 := plane_transform]> (ecs_transforms w4))
    (<[e1 := mesh]> (meshes w4)) (<[e1 := mtl]> (materials w4))
    ({[e1]} ∪ transparent w4) (cameras w4) (ui_ids w4) (ui_texts w4)
    (material_defaults w4).

(** What [ExampleSystem::run] sees of an [EcsWorld]. *)
Definition system_view (w : EcsWorld) (t : Time F) (ds : DemoState F) (fps : F)
  : World F :=
  mkWorld t (cameras w) (ecs_transforms w) ds (ui_texts w) fps (ui_find w).
End States.

Arguments Material F : clear implicits.
Arguments EcsWorld F : clear implicits.

(** ** Properties of the loading states *)

Section StateLemmas.
Context {F : Type} `{NReal F} `{NLit F}.

Lemma ui_find_some (w : EcsWorld F) (id : string) (e : Entity) :
  ui_find w id = Some e -> e ∈ alive w /\ ui_ids w !! e = Some id.
Proof.
  unfold ui_find. intros Hh. apply head_Some_elem_of in Hh.
  apply list_elem_of_filter in Hh as [Hp _]. exact Hp.
Qed.

Lemma ui_find_none (w : EcsWorld F) (id : string) (e : Entity) :
  ui_find w id = None -> (e < next_entity w)%nat -> e ∈ alive w ->
  ui_ids w !! e <> Some id.
Proof.
  unfold ui_find. intros Hh Hlt Ha Hid.
  apply head_None in Hh.
  assert (Hin : e ∈ filter (fun e => e ∈ alive w /\ ui_ids w !! e = Some id)
                  (seq 0 (next_entity w))).
  { apply list_elem_of_filter. split; [done|]. apply elem_of_seq. lia. }
  rewrite Hh in Hin. set_solver.
Qed.

Lemma delete_entity_spec (w : EcsWorld F) (e : Entity) :
  e ∈ alive w ->
  let w' := snd (delete_entity w e) in
  alive w' = alive w ∖ {[e]} /\
  scenes w' !! e = None /\ ui_prefabs w' !! e = None /\
  ecs_transforms w' !! e = None /\ meshes w' !! e = None /\
  materials w' !! e = None /\ (e ∉ transparent w') /\ (e ∉ cameras w') /\
  ui_ids w' !! e = None /\ ui_texts w' !! e = None /\
  (forall x, x ≠ e ->
     scenes w' !! x = scenes w !! x /\ ui_prefabs w' !! x = ui_prefabs w !! x /\
     ecs_transforms w' !! x = ecs_transforms w !! x /\
     meshes w' !! x = meshes w !! x /\ materials w' !! x = materials w !! x /\
     (x ∈ transparent w' <-> x ∈ transparent w) /\
     (x ∈ cameras w' <-> x ∈ cameras w) /\
     ui_ids w' !! x = ui_ids w !! x /\ ui_texts w' !! x = ui_texts w !! x).
Proof.
  intros Ha. unfold delete_entity. rewrite bool_decide_eq_true_2 by exact Ha.
  cbn. rewrite !lookup_delete_eq. split; [done|].
  do 5 (split; [done|]). split; [set_solver|]. split; [set_solver|].
  split; [done|]. split; [done|]. intros x Hx.
  rewrite !lookup_delete_ne by congruence. set_solver.
Qed.
End StateLemmas.

(** X9: on a complete load with a stored prefab handle [h], [update]
    switches to [Example { scene: h }].  If no live entity has UI id
    ["loading"] the world is unchanged; otherwise one live entity with that
    id is deleted: it loses its liveness and every component, and every
    other entity keeps its liveness and all its components. *)
Theorem X9_loading_complete {F : Type} `{NReal F} `{NLit F}
    (st : Loading) (w : EcsWorld F) (h : Handle) :
  ecs_wf w -> prefab st = Some h ->
  exists w', loading_update Completion.Complete st w = Some (TransSwitch (mkExample h), w') /\
    ((forall x, x ∈ alive w -> ui_ids w !! x <> Some "loading") /\ w' = w \/
     exists e, e ∈ alive w /\ ui_ids w !! e = Some "loading" /\
       alive w' = alive w ∖ {[e]} /\
       scenes w' !! e = None /\ ui_prefabs w' !! e = None /\
       ecs_transforms w' !! e = None /\ meshes w' !! e = None /\
       materials w' !! e = None /\ (e ∉ transparent w') /\ (e ∉ cameras w') /\
       ui_ids w' !! e = None /\ ui_texts w' !! e = None /\
       (forall x, x ≠ e ->
          scenes w' !! x = scenes w !! x /\ ui_prefabs w' !! x = ui_prefabs w !! x /\
          ecs_transforms w' !! x = ecs_transforms w !! x /\
          meshes w' !! x = meshes w !! x /\ materials w' !! x = materials w !! x /\
          (x ∈ transparent w' <-> x ∈ transparent w) /\
          (x ∈ cameras w' <-> x ∈ cameras w) /\
          ui_ids w' !! x = ui_ids w !! x /\ ui_texts w' !! x = ui_texts w !! x)).
Proof.
  intros Hw Hp. unfold loading_update. rewrite Hp. eexists. split; [reflexivity|].
  destruct (ui_find w "loading") as [e|] eqn:Hf.
  - right. destruct (ui_find_some w "loading" e Hf) as [Ha Hid].
    exists e. split; [exact Ha | split; [exact Hid |]].
    apply (delete_entity_spec w e Ha).
  - left. split; [|reflexivity]. intros x Hx.
    apply (ui_find_none w "loading" x Hf); [apply (proj1 Hw x Hx) | exact Hx].
Qed.

Definition offset0 : TextureOffset := mkTextureOffset (0, 0)%R (0, 0)%R.

Definition material0 : Material R :=
  mkMaterial 0%R 0%nat offset0 0%nat offset0 0%nat offset0 0%nat offset0 0%nat offset0
    0%nat offset0 0%nat offset0.

(** Two live entities, both with UI id ["loading"]. *)
Definition x9_world : EcsWorld R :=
  mkEcs 2%nat {[0%nat; 1%nat]} 0%nat ∅ ∅ ∅ ∅ ∅ ∅ ∅ ∅
    {[0%nat := "loading"; 1%nat := "loading"]} ∅ material0.

Lemma x9_world_wf : ecs_wf x9_world.
Proof.
  unfold ecs_wf; cbn. split.
  - intros e He. apply elem_of_union in He as [He|He];
      apply elem_of_singleton in He; lia.
  - rewrite ?dom_empty_L, ?dom_insert_L, ?dom_empty_L. set_solver.
Qed.

Lemma X9_loading_complete_witness :
  ecs_wf x9_world /\ prefab (mkLoading (mkProgressCounter 3) (Some 4%nat)) = Some 4%nat /\
  exists w', loading_update Completion.Complete (mkLoading (mkProgressCounter 3) (Some 4%nat))
               x9_world = Some (TransSwitch (mkExample 4%nat), w').
Proof.
  split; [exact x9_world_wf | split; [reflexivity|]].
  destruct (X9_loading_complete (mkLoading (mkProgressCounter 3) (Some 4%nat)) x9_world
              4%nat x9_world_wf eq_refl) as [w' [E _]].
  exists w'. exact E.
Defined.

(** X10: after [Loading::on_start] the state holds the handle of
    ["prefab/renderable.ron"] and three more tracked assets, so any later
    [update] never panics, and a complete load switches to [Example] with
    that handle as its scene. *)
Theorem X10_on_start_then_update {F : Type} `{NReal F} `{NLit F}
    (st : Loading) (w : EcsWorld F) (c : Completion.t) :
  let st' := fst (loading_on_start st w) in
  let w' := snd (loading_on_start st w) in
  num_assets (progress st') = (num_assets (progress st) + 3)%nat /\
  exists h, prefab st' = Some h /\
    assets w' !! h = Some (FromFile "prefab/renderable.ron") /\
    (forall w'' : EcsWorld F, loading_update c st' w'' <> None) /\
    (forall w'' : EcsWorld F, exists w3,
       loading_update Completion.Complete st' w'' = Some (TransSwitch (mkExample h), w3)).
Proof.
  cbn. split; [lia|]. exists (next_handle w). split; [done | split].
  - rewrite !lookup_insert_ne by lia. apply lookup_insert_eq.
  - split.
    + intros w''. unfold loading_update. destruct c; cbn; congruence.
    + intros w''. eexists. reflexivity.
Qed.

(** X11: [Example::on_start] adds the scene entity (the next fresh one)
    holding the scene handle and, right after it, the transparent plane:
    transform at (-5, -5, 5) with identity orientation and scale 8, the
    generated plane mesh, the default material with the
    ["texture/logo_transparent.png"] albedo, and no camera. No other
    transform or camera changes. *)
Theorem X11_example_on_start {F : Type} `{NReal F} `{NLit F}
    (ex : Example) (w : EcsWorld F) :
  ecs_wf w ->
  let w' := example_on_start ex w in
  let e0 := next_entity w in
  let e1 := S (next_entity w) in
  scenes w' !! e0 = Some (scene ex) /\
  ecs_transforms w' = <[e1 := plane_transform]> (ecs_transforms w) /\
  plane_transform = mkTransform (mkIso (mkV (flit (-5)) (flit (-5)) (flit 5)) quat_identity)
                      (mkV (flit 8) (flit 8) (flit 8)) /\
  (exists mesh, meshes w' !! e1 = Some mesh /\ assets w' !! mesh = Some FromPlaneMesh) /\
  (exists alb, materials w' !! e1 = Some (with_albedo (material_defaults w) alb) /\
     assets w' !! alb = Some (FromFile "texture/logo_transparent.png")) /\
  e1 ∈ transparent w' /\
  cameras w' = cameras w /\ e1 ∉ cameras w'.
Proof.
  intros Hwf. destruct Hwf as (Hlt & _ & _ & _ & _ & _ & _ & Hcam & _).
  cbn. split; [apply lookup_insert_eq|]. split; [done|]. split; [done|].
  split; [|split; [|split; [|split]]].
  - eexists. split; [apply lookup_insert_eq|].
    rewrite lookup_insert_ne by lia. apply lookup_insert_eq.
  - eexists. split; [apply lookup_insert_eq|]. apply lookup_insert_eq.
  - set_solver.
  - done.
  - intros Hc. apply Hcam, Hlt in Hc. lia.
Qed.

(** X12: the plane created by [Example::on_start] is never moved by
    [ExampleSystem::run]: it holds no camera, so a tick on the resulting
    world leaves its transform at [plane_transform]. *)
Theorem X12_plane_not_rotated {F : Type} `{NReal F} `{NLit F}
    (ex : Example) (w : EcsWorld F) (sys : ExampleSystem) (t : Time F)
    (ds : DemoState F) (fps : F) :
  ecs_wf w ->
  transforms (snd (run sys (system_view (example_on_start ex w) t ds fps)))
    !! S (next_entity w) = Some plane_transform.
Proof.
  intros (Hlt & _ & _ & _ & _ & _ & _ & Hcam & _).
  rewrite run_transforms, lookup_rotate_cameras.
  rewrite decide_False.
  - cbn. apply lookup_insert_eq.
  - cbn. intros Hc. apply Hcam, Hlt in Hc. lia.
Qed.

Definition x12_world : EcsWorld R :=
  mkEcs 1%nat {[0%nat]} 0%nat ∅ ∅ ∅ ∅ ∅ ∅ ∅ {[0%nat]} ∅ ∅ material0.

Lemma x12_world_wf : ecs_wf x12_world.
Proof.
  unfold ecs_wf; cbn. split; [|rewrite !dom_empty_L; set_solver].
  intros e He. apply elem_of_singleton in He. lia.
Qed.

Lemma X11_example_on_start_witness :
  ecs_wf x12_world /\
  ecs_transforms (example_on_start (mkExample 7%nat) x12_world) =
    <[2%nat := plane_transform]> (ecs_transforms x12_world).
Proof.
  split; [exact x12_world_wf|].
  exact (proj1 (proj2 (X11_example_on_start (mkExample 7%nat) x12_world x12_world_wf))).
Defined.

Lemma X12_plane_not_rotated_witness :
  ecs_wf x12_world /\
  transforms (snd (run example_system_default
    (system_view (example_on_start (mkExample 7%nat) x12_world)
       (mkTime 1%R 0) demo_state_default 60%R))) !! 2%nat = Some plane_transform.
Proof.
  split; [exact x12_world_wf|].
  exact (X12_plane_not_rotated (mkExample 7%nat) x12_world example_system_default
           (mkTime 1%R 0) demo_state_default 60%R x12_world_wf).
Defined.

(** ** The storage invariant *)

Section WfLemmas.
Context {F : Type} `{NReal F} `{NLit F}.

Lemma lt_fresh (w : EcsWorld F) (e : Entity) :
  (forall e, e ∈ alive w -> e < next_entity w)%nat ->
  e ∈ {[next_entity w]} ∪ alive w -> (e < S (next_entity w))%nat.
Proof.
  intros Hlt He. apply elem_of_union in He as [He|He].
  - apply elem_of_singleton in He. lia.
  - apply Hlt in He. lia.
Qed.

Lemma create_entity_wf (w : EcsWorld F) : ecs_wf w -> ecs_wf (snd (create_entity w)).
Proof.
  intros (Hlt & K1 & K2 & K3 & K4 & K5 & K6 & K7 & K8 & K9). cbn.
  split; [intros e He; by apply lt_fresh|]. set_solver.
Qed.

Lemma load_asset_wf (w : EcsWorld F) src : ecs_wf w -> ecs_wf (snd (load_asset w src)).
Proof. intros Hw. exact Hw. Qed.

Lemma ui_create_wf (w : EcsWorld F) path p :
  ecs_wf w -> ecs_wf (fst (ui_create w path p)).
Proof.
  intros (Hlt & K1 & K2 & K3 & K4 & K5 & K6 & K7 & K8 & K9). unfold ui_create, ecs_wf. cbn.
  split; [intros e He; by apply lt_fresh|]. rewrite dom_insert_L. set_solver.
Qed.

Lemma delete_entity_wf (w : EcsWorld F) e : ecs_wf w -> ecs_wf (snd (delete_entity w e)).
Proof.
  intros Hw. unfold delete_entity. case_bool_decide; [|exact Hw].
  destruct Hw as (Hlt & K1 & K2 & K3 & K4 & K5 & K6 & K7 & K8 & K9).
  unfold ecs_wf. cbn.
  split; [intros x Hx; apply Hlt; set_solver|].
  rewrite !dom_delete_L. set_solver.
Qed.
End WfLemmas.

(** X13: every storage holds components of live entities only, and live
    entities are ones already allocated; [Loading::on_start],
    [Loading::update] (whatever the load status) and [Example::on_start]
    all keep this. *)
Theorem X13_states_keep_wf {F : Type} `{NReal F} `{NLit F} (w : EcsWorld F) :
  ecs_wf w ->
  (forall st : Loading, ecs_wf (snd (loading_on_start st w))) /\
  (forall (c : Completion.t) (st : Loading) tr (w' : EcsWorld F),
     loading_update c st w = Some (tr, w') -> ecs_wf w') /\
  (forall ex : Example, ecs_wf (example_on_start ex w)).
Proof.
  intros Hw. split; [|split].
  - intros st. unfold loading_on_start.
    pose proof (ui_create_wf (snd (load_asset w (FromFile "prefab/renderable.ron")))
                  "ui/fps.ron" (track (progress st)) Hw) as Hw2.
    cbn -[ui_create] in Hw2 |- *.
    destruct (ui_create _ "ui/fps.ron" _) as [w2 p2]. cbn in Hw2.
    pose proof (ui_create_wf w2 "ui/loading.ron" p2 Hw2) as Hw3.
    destruct (ui_create w2 "ui/loading.ron" p2) as [w3 p3]. exact Hw3.
  - intros c st tr w' Hu. unfold loading_update in Hu. destruct c.
    + injection Hu as _ <-. exact Hw.
    + destruct (prefab st); [|discriminate]. injection Hu as _ <-.
      destruct (ui_find w "loading"); [by apply delete_entity_wf | exact Hw].
    + injection Hu as _ <-. exact Hw.
  - intros ex. unfold example_on_start.
    pose proof (create_entity_wf w Hw) as Hw0.
    remember (snd (create_entity w)) as w0 eqn:Ew0.
    cbn in Ew0. subst w0.
    destruct Hw0 as (Hlt & K1 & K2 & K3 & K4 & K5 & K6 & K7 & K8 & K9).
    unfold ecs_wf. cbn in *. split.
    + intros e He. apply elem_of_union in He as [He|He];
        [apply elem_of_singleton in He; lia | apply Hlt in He; lia].
    + rewrite !dom_insert_L. set_solver.
Qed.

Lemma X13_states_keep_wf_witness :
  ecs_wf x12_world /\ ecs_wf (example_on_start (mkExample 7%nat) x12_world).
Proof.
  split; [exact x12_world_wf|].
  exact (proj2 (proj2 (X13_states_keep_wf x12_world x12_world_wf)) (mkExample 7%nat)).
Defined.

Definition x2_tick : TickInput R :=
  mkTickInput (mkTime 1%R 0) ∅ 60%R (fun _ => None).

Lemma X2_non_camera_transform_fixed_witness :
  Forall (fun i => 0%nat ∉ tick_camera i) [x2_tick; x2_tick] /\
  transforms (snd (run_ticks example_system_default c2_world [x2_tick; x2_tick])) !! 0%nat
    = Some c2_transform.
Proof.
  assert (Hc : Forall (fun i => 0%nat ∉ tick_camera i) [x2_tick; x2_tick])
    by (repeat constructor; cbn; set_solver).
  split; [exact Hc|].
  exact (X2_non_camera_transform_fixed example_system_default c2_world
           [x2_tick; x2_tick] 0%nat Hc).
Defined.
